(** * A GraphQL-to-MCP bridge: the tool handlers, the schema cache and the
      session registry of [mcpServer.js] and [mcpServer_publicAPI.js]

    The two entry points share their first 153 lines word for word: the
    endpoint, the introspection document, the module-level variables
    [cachedSchema], [sessions] and [sessionCounter], [generateSessionId] and
    the [introspect-schema] handler.  They differ in the [query-graphql]
    handler's parameter list and in the [POST /mcp] route, where the public
    API variant answers [query-graphql] calls by hand before the SDK
    transport sees them. *)

From Stdlib Require Import ZArith Ascii String List Lia.
From stdpp Require Import base strings pretty list gmap.

Local Open Scope Z_scope.

(** ** JavaScript values

    The handlers never look inside the values they move around, they store
    them, test them for truthiness, read a property and serialize them.
    Values are the JSON values a request body or an upstream answer can hold;
    [undefined] is the [None] of [option json].  Numbers are the integers
    (the code does no arithmetic on a value it received). An object is the
    list of its own properties in enumeration order. *)

#[warnings="-register-all"]
Inductive json : Type :=
| JNull
| JBool (b : bool)
| JNum (n : Z)
| JStr (s : string)
| JArr (items : list json)
| JObj (props : list (string * json)).

(** [undefined] or a value. *)
Abbreviation jsval := (option json).

(** [Boolean(v)]: what [if (v)], [!v], [a && b] and [a || b] test. *)
Definition truthy (v : json) : bool :=
  match v with
  | JNull => false
  | JBool b => b
  | JNum n => negb (n =? 0)
  | JStr s => negb (String.eqb s "")
  | JArr _ | JObj _ => true
  end.

Fixpoint assoc (k : string) (props : list (string * json)) : jsval :=
  match props with
  | [] => None
  | (k', v) :: rest => if String.eqb k k' then Some v else assoc k rest
  end.

(** [v.k] for one of the keys the routes read ([method], [params], [name],
    [arguments], [id], [query], [variables]): an own property of an object,
    [undefined] on every other value that admits property access. *)
Definition prop (v : json) (k : string) : jsval :=
  match v with
  | JObj props => assoc k props
  | _ => None
  end.

(** [v === 'literal'] *)
Definition strict_eq_string (v : jsval) (lit : string) : bool :=
  match v with
  | Some (JStr s) => String.eqb s lit
  | _ => false
  end.

(** An object literal [{ k1: e1, k2: e2 }] as [JSON.stringify] and
    [res.json] see it: a property whose value is [undefined] is left out. *)
Fixpoint object_literal (fields : list (string * jsval)) : list (string * json) :=
  match fields with
  | [] => []
  | (k, Some v) :: rest => (k, v) :: object_literal rest
  | (_, None) :: rest => object_literal rest
  end.

(** ** [JSON.stringify] *)

Definition dquote : string := String (ascii_of_nat 34) EmptyString.
Definition backslash : string := String (ascii_of_nat 92) EmptyString.

Definition hex_digit (n : nat) : ascii :=
  match n with
  | 0 => "0" | 1 => "1" | 2 => "2" | 3 => "3" | 4 => "4" | 5 => "5"
  | 6 => "6" | 7 => "7" | 8 => "8" | 9 => "9" | 10 => "a" | 11 => "b"
  | 12 => "c" | 13 => "d" | 14 => "e" | _ => "f"
  end%nat%char.

(** QuoteJSONString on one code unit. *)
Definition escape_char (c : ascii) : string :=
  let n := nat_of_ascii c in
  if (n =? 34)%nat then backslash +:+ dquote
  else if (n =? 92)%nat then backslash +:+ backslash
  else if (n =? 8)%nat then backslash +:+ "b"
  else if (n =? 9)%nat then backslash +:+ "t"
  else if (n =? 10)%nat then backslash +:+ "n"
  else if (n =? 12)%nat then backslash +:+ "f"
  else if (n =? 13)%nat then backslash +:+ "r"
  else if (n <? 32)%nat then
    backslash +:+ "u00" +:+
    String (hex_digit (n / 16)) (String (hex_digit (n mod 16)) EmptyString)
  else String c EmptyString.

Fixpoint escape (s : string) : string :=
  match s with
  | EmptyString => EmptyString
  | String c rest => escape_char c +:+ escape rest
  end.

Definition quote (s : string) : string := dquote +:+ escape s +:+ dquote.

Fixpoint join_comma (parts : list string) : string :=
  match parts with
  | [] => ""
  | [p] => p
  | p :: rest => p +:+ "," +:+ join_comma rest
  end.

Fixpoint JSON_stringify (v : json) : string :=
  match v with
  | JNull => "null"
  | JBool true => "true"
  | JBool false => "false"
  | JNum n => pretty n
  | JStr s => quote s
  | JArr items =>
      "[" +:+ join_comma ((fix each (l : list json) : list string :=
                             match l with
                             | [] => []
                             | x :: r => JSON_stringify x :: each r
                             end) items) +:+ "]"
  | JObj props =>
      "{" +:+ join_comma ((fix each (l : list (string * json)) : list string :=
                             match l with
                             | [] => []
                             | (k, x) :: r =>
                                 (quote k +:+ ":" +:+ JSON_stringify x) :: each r
                             end) props) +:+ "}"
  end.

(** ** The constants of both files *)

Definition GRAPHQL_ENDPOINT : string := "https://countries.trevorblades.com/".

(** The template literal tagged [gql]; the tag of graphql-request returns the
    text of the literal as it stands, first and last line break included. *)
Definition INTROSPECTION_QUERY : string := "
  query IntrospectionQuery {
    __schema {
      queryType { name }
      mutationType { name }
      subscriptionType { name }
      types {
        ...FullType
      }
      directives {
        name
        description
        locations
        args {
          ...InputValue
        }
      }
    }
  }
  fragment FullType on __Type {
    kind
    name
    description
    fields(includeDeprecated: true) {
      name
      description
      args {
        ...InputValue
      }
      type {
        ...TypeRef
      }
      isDeprecated
      deprecationReason
    }
    inputFields {
      ...InputValue
    }
    interfaces {
      ...TypeRef
    }
    enumValues(includeDeprecated: true) {
      name
      description
      isDeprecated
      deprecationReason
    }
    possibleTypes {
      ...TypeRef
    }
  }
  fragment InputValue on __InputValue {
    name
    description
    type { ...TypeRef }
    defaultValue
  }
  fragment TypeRef on __Type {
    kind
    name
    ofType {
      kind
      name
      ofType {
        kind
        name
        ofType {
          kind
          name
          ofType {
            kind
            name
            ofType {
              kind
              name
              ofType {
                kind
                name
              }
            }
          }
        }
      }
    }
  }
".

(** ** Reading a GraphQL document

    Enough of the GraphQL lexical grammar to measure a selection set: names,
    punctuators, and the ignored characters (blanks, line ends, commas). *)

Module GraphQL.

Inductive token : Type :=
| Name (s : string)
| Punct (c : ascii).

Definition is_name_char (c : ascii) : bool :=
  let n := nat_of_ascii c in
  ((65 <=? n) && (n <=? 90) || (97 <=? n) && (n <=? 122)
   || (48 <=? n) && (n <=? 57) || (n =? 95))%nat.

Definition is_ignored (c : ascii) : bool :=
  let n := nat_of_ascii c in
  ((n =? 32) || (n =? 9) || (n =? 10) || (n =? 13) || (n =? 44))%nat.

Definition flush (word : string) (rest : list token) : list token :=
  if String.eqb word "" then rest else Name word :: rest.

Fixpoint lex_from (s : string) (word : string) : list token :=
  match s with
  | EmptyString => flush word []
  | String c rest =>
      if is_name_char c then lex_from rest (word +:+ String c EmptyString)
      else flush word
             (if is_ignored c then lex_from rest ""
              else Punct c :: lex_from rest "")
  end.

Definition lex (s : string) : list token := lex_from s "".

(** The tokens of a block from just after its opening brace up to its
    matching closing brace ([open] braces are still to be closed). *)
Fixpoint block (toks : list token) (open : nat) : list token :=
  match toks with
  | [] => []
  | Punct "{" :: rest => Punct "{" :: block rest (S open)
  | Punct "}" :: rest =>
      match open with
      | O => []
      | S n => Punct "}" :: block rest n
      end
  | t :: rest => t :: block rest open
  end.

(** The selection set of [fragment name on T { ... }], braces excluded. *)
Fixpoint fragment_selection (name : string) (toks : list token) : list token :=
  match toks with
  | Name "fragment" :: ((Name n :: Name "on" :: Name _ :: Punct "{" :: body) as rest) =>
      if String.eqb n name then block body 0 else fragment_selection name rest
  | _ :: rest => fragment_selection name rest
  | [] => []
  end.

(** How deep the field [field] is nested inside selection sets of itself:
    the largest number of [field { ... }] blocks open at once.  [stack]
    holds, for each open brace, whether [field] opened it ([open_fields]
    counts those); [prev] is the token just read. *)
Fixpoint open_fields (stack : list bool) : nat :=
  match stack with
  | [] => O
  | true :: rest => S (open_fields rest)
  | false :: rest => open_fields rest
  end.

Fixpoint nesting_from (field : string) (toks : list token)
         (prev : option token) (stack : list bool) : nat :=
  match toks with
  | [] => O
  | Punct "{" :: rest =>
      let opened_by_field :=
        match prev with
        | Some (Name p) => String.eqb p field
        | _ => false
        end in
      let stack' := opened_by_field :: stack in
      Nat.max (open_fields stack')
              (nesting_from field rest (Some (Punct "{")) stack')
  | Punct "}" :: rest => nesting_from field rest (Some (Punct "}")) (tail stack)
  | t :: rest => nesting_from field rest (Some t) stack
  end.

Definition nesting (field : string) (toks : list token) : nat :=
  nesting_from field toks None [].

(** A selection of [kind] and [name] that follows [ofType] [n] times. *)
Fixpoint type_ref (n : nat) : list token :=
  [Name "kind"; Name "name"] ++
  match n with
  | O => []
  | S m => [Name "ofType"; Punct "{"] ++ type_ref m ++ [Punct "}"]
  end.

End GraphQL.

Definition TypeRef_fragment : list GraphQL.token :=
  GraphQL.fragment_selection "TypeRef" (GraphQL.lex INTROSPECTION_QUERY).

(** ** Module state and effects

    The module-level variables of either file: [let cachedSchema = null],
    [const sessions = new Map()], [let sessionCounter = 0]. *)

Record Session : Type := { id : string; created : Z }.

Record Globals : Type := {
  cachedSchema : json;
  sessions : gmap string Session;
  sessionCounter : Z;
}.

Definition initial : Globals :=
  {| cachedSchema := JNull; sessions := ∅; sessionCounter := 0 |}.

(** One call [request(url, document, variables)] of graphql-request. *)
Record UpstreamCall : Type := {
  url : string;
  document : jsval;
  variables : jsval;
}.

(** How the promise of [request] settles: with the [data] of the answer, or
    with an error whose [message] the handlers read. *)
Inductive Settled : Type :=
| Resolved (data : json)
| Rejected (message : string).

(** What a handler does, step by step: it reads and writes the module
    variables between suspension points, reads the clock, and suspends on
    the upstream call.  Logging is left out. *)
Inductive Task (A : Type) : Type :=
| Return (a : A)
| Read (k : Globals -> Task A)
| Modify (f : Globals -> Globals) (k : Task A)
| Now (k : Z -> Task A)
| Await (c : UpstreamCall) (k : Settled -> Task A).

Arguments Return {A} a.
Arguments Read {A} k.
Arguments Modify {A} f k.
Arguments Now {A} k.
Arguments Await {A} c k.

Fixpoint bind {A B : Type} (t : Task A) (f : A -> Task B) : Task B :=
  match t with
  | Return a => f a
  | Read k => Read (fun g => bind (k g) f)
  | Modify h k => Modify h (bind k f)
  | Now k => Now (fun n => bind (k n) f)
  | Await c k => Await c (fun r => bind (k r) f)
  end.

#[global] Instance Task_ret : MRet Task := @Return.
#[global] Instance Task_bind : MBind Task := fun A B f t => bind t f.

(** The world outside the process during one run: how the upstream endpoint
    answers a call, and the time. *)
Record World : Type := {
  upstream : UpstreamCall -> Settled;
  Date_now : Z;
}.

Record Outcome (A : Type) : Type := {
  result : A;
  globals : Globals;
  calls : list UpstreamCall;
}.

Arguments result {A} o.
Arguments globals {A} o.
Arguments calls {A} o.

(** One task from its first step to its last, in one world.  The event loop
    runs the steps between two suspension points without interruption; a run
    here also lets no other request in while the task waits upstream. *)
Fixpoint run {A : Type} (t : Task A) (w : World) (g : Globals) : Outcome A :=
  match t with
  | Return a => {| result := a; globals := g; calls := [] |}
  | Read k => run (k g) w g
  | Modify f k => run k w (f g)
  | Now k => run (k (Date_now w)) w g
  | Await c k =>
      let o := run (k (upstream w c)) w g in
      {| result := result o; globals := globals o; calls := c :: calls o |}
  end.

(** [await request(url, document, variables)] under [try]: the caller
    matches on how the promise settled. *)
Definition request (url : string) (document variables : jsval) : Task Settled :=
  Await {| url := url; document := document; variables := variables |} Return.

(** ** Session identifiers and the session manager (both files) *)

(** The largest value up to which [++] on a Number is exact: past [2^53] the
    sum [n + 1] rounds back to [n]. *)
Definition MAX_EXACT : Z := 2 ^ 53.

(** [++n] on a Number holding an integer between 0 and [2^53]. *)
Definition increment (n : Z) : Z := if n <? MAX_EXACT then n + 1 else n.

(** [`${n}`] for an integer below [10^21] in absolute value: its decimal
    numeral. *)
Definition Number_toString (n : Z) : string := pretty n.

Definition generateSessionId : Task string :=
  Modify (fun g => {| cachedSchema := cachedSchema g;
                      sessions := sessions g;
                      sessionCounter := increment (sessionCounter g) |})
    (Read (fun g => Return ("session-" +:+ Number_toString (sessionCounter g)))).

Record SessionManager : Type := {
  sessionIdGenerator : Task string;
  getSession : string -> Task (option Session);
  createSession : string -> Task Session;
  deleteSession : string -> Task unit;
}.

Definition sessionManager : SessionManager := {|
  sessionIdGenerator := generateSessionId;
  getSession := fun sessionId => Read (fun g => Return (sessions g !! sessionId));
  createSession := fun sessionId =>
    Now (fun t =>
      let session := {| id := sessionId; created := t |} in
      Modify (fun g => {| cachedSchema := cachedSchema g;
                          sessions := <[sessionId := session]> (sessions g);
                          sessionCounter := sessionCounter g |})
        (Return session));
  deleteSession := fun sessionId =>
    Modify (fun g => {| cachedSchema := cachedSchema g;
                        sessions := delete sessionId (sessions g);
                        sessionCounter := sessionCounter g |})
      (Return tt);
|}.

(** ** Tool results and the [introspect-schema] handler (both files) *)

Record ContentBlock : Type := { type : string; text : string }.
Record ToolResult : Type := { content : list ContentBlock }.

Definition text_content (s : string) : ToolResult :=
  {| content := [ {| type := "text"; text := s |} ] |}.

Definition introspect_schema : Task ToolResult :=
  r ← request GRAPHQL_ENDPOINT (Some (JStr INTROSPECTION_QUERY)) None;
  match r with
  | Resolved schema =>
      Modify (fun g => {| cachedSchema := schema;
                          sessions := sessions g;
                          sessionCounter := sessionCounter g |})
        (Return (text_content (JSON_stringify schema)))
  | Rejected message =>
      Return (text_content (JSON_stringify (JObj (object_literal [
        ("error", Some (JStr "Failed to introspect schema"));
        ("details", Some (JStr message)) ]))))
  end.

Definition schema_not_available : string :=
  "Schema not available. Please run introspect-schema first.".

(** The body both [query-graphql] handlers share once [query] and
    [variables] are bound. *)
Definition query_graphql_body (query variables : jsval) : Task ToolResult :=
  Read (fun g =>
    if negb (truthy (cachedSchema g)) then
      let msg := schema_not_available in
      Return (text_content (JSON_stringify (JObj (object_literal [
        ("error", Some (JStr msg)) ]))))
    else
      r ← request GRAPHQL_ENDPOINT query variables;
      match r with
      | Resolved data =>
          Return (text_content (JSON_stringify (JObj (object_literal [
            ("data", Some data) ]))))
      | Rejected message =>
          Return (text_content (JSON_stringify (JObj (object_literal [
            ("error", Some (JStr "Failed to execute GraphQL query"));
            ("details", Some (JStr message)) ]))))
      end).

(** A tool as [server.tool(name, description, shape, handler)] registers it;
    the SDK hands the handler the arguments object. *)
Definition Tool : Type := string * (json -> Task ToolResult).

(** What the SDK transport did with a request: it answered, or it threw
    ([sent] tells whether the response had begun, [res.headersSent]). *)
Inductive Handled (Reply : Type) : Type :=
| Answered (reply : Reply)
| Threw (sent : option Reply) (message : string).

Arguments Answered {Reply} reply.
Arguments Threw {Reply} sent message.

(** What the client of [POST /mcp] gets. *)
Inductive Response (Reply : Type) : Type :=
| res_json (status : Z) (body : json)
| from_transport (reply : Reply).

Arguments res_json {Reply} status body.
Arguments from_transport {Reply} reply.

Definition internal_server_error {Reply : Type} (message : string) : Response Reply :=
  res_json 500 (JObj (object_literal [
    ("error", Some (JStr "Internal server error"));
    ("details", Some (JStr message)) ])).

(** The [catch] of either route: a 500 unless the response has begun. *)
Definition settle {Reply : Type} (h : Handled Reply) : Response Reply :=
  match h with
  | Answered reply => from_transport reply
  | Threw None message => internal_server_error message
  | Threw (Some reply) _ => from_transport reply
  end.

(** A tool result as the JSON the client reads. *)
Definition ContentBlock_json (b : ContentBlock) : json :=
  JObj [("type", JStr (type b)); ("text", JStr (text b))].

Definition ToolResult_json (r : ToolResult) : json :=
  JObj [("content", JArr (map ContentBlock_json (content r)))].

(** ** [mcp-graphql-server-1/src/mcpServer.js] *)

Module McpServer.

(** [async ({ query, variables }) => ...] *)
Definition query_graphql (args : json) : Task ToolResult :=
  let query := prop args "query" in
  let variables := prop args "variables" in
  query_graphql_body query variables.

Definition tools : list Tool :=
  [ ("introspect-schema", fun _ => introspect_schema);
    ("query-graphql", query_graphql) ].

Section Route.
Context {Reply : Type}.
(** [server.connect(transport)] and [transport.handleRequest(req, res,
    req.body)] of the SDK, given the registered tools and the session
    manager. *)
Variable transport : list Tool -> SessionManager -> jsval -> Task (Handled Reply).

Definition post_mcp (body : jsval) : Task (Response Reply) :=
  h ← transport tools sessionManager body;
  Return (settle h).
End Route.

End McpServer.

(** ** [mcpServer_publicAPI.js] *)

Module PublicAPI.

(** [async (args, context) => ...]; [context] is only logged. *)
Definition query_graphql (args : json) : Task ToolResult :=
  let query := prop args "query" in
  let variables := prop args "variables" in
  query_graphql_body query variables.

Definition tools : list Tool :=
  [ ("introspect-schema", fun _ => introspect_schema);
    ("query-graphql", query_graphql) ].

(** [req.body && req.body.method === 'tools/call' && req.body.params &&
    req.body.params.name === 'query-graphql'] *)
Definition is_manual_query (body : jsval) : bool :=
  match body with
  | Some b =>
      truthy b && strict_eq_string (prop b "method") "tools/call" &&
      match prop b "params" with
      | Some params =>
          truthy params && strict_eq_string (prop params "name") "query-graphql"
      | None => false
      end
  | None => false
  end.

(** [v.k] where the guard has found [v] truthy. *)
Definition member (v : jsval) (k : string) : jsval :=
  match v with
  | Some x => prop x k
  | None => None
  end.

(** [req.body.params.arguments || {}] *)
Definition manual_arguments (body : jsval) : json :=
  match member (member body "params") "arguments" with
  | Some a => if truthy a then a else JObj []
  | None => JObj []
  end.

(** [{ result: { content: [...] }, jsonrpc: '2.0', id: req.body.id }] *)
Definition manual_envelope (r : ToolResult) (body : jsval) : json :=
  JObj (object_literal [
    ("result", Some (ToolResult_json r));
    ("jsonrpc", Some (JStr "2.0"));
    ("id", member body "id") ]).

(** The tool result the manual branch builds. *)
Definition manual_result (body : jsval) : Task ToolResult :=
  let query := prop (manual_arguments body) "query" in
  let variables := prop (manual_arguments body) "variables" in
  r ← request GRAPHQL_ENDPOINT query variables;
  match r with
  | Resolved data => Return (text_content (JSON_stringify data))
  | Rejected message =>
      Return (text_content (JSON_stringify (JObj (object_literal [
        ("error", Some (JStr "Failed to execute GraphQL query"));
        ("details", Some (JStr message)) ]))))
  end.

Section Route.
Context {Reply : Type}.
Variable transport : list Tool -> SessionManager -> jsval -> Task (Handled Reply).

Definition post_mcp (body : jsval) : Task (Response Reply) :=
  if is_manual_query body then
    r ← manual_result body;
    Return (res_json 200 (manual_envelope r body))
  else
    h ← transport tools sessionManager body;
    Return (settle h).
End Route.

End PublicAPI.

(** ** The tool result of the specification

    The specification describes a handler as returning [Success(payload)] or
    [Failure(message, details)], and a translator that wraps it into one text
    block.  These two definitions follow its words; the handlers above are
    compared with them. *)

Inductive ToolOutcome : Type :=
| Success (payload : json)
| Failure (message : string) (details : jsval).

Definition spec_translate (o : ToolOutcome) : ToolResult :=
  text_content (JSON_stringify
    match o with
    | Success payload => JObj (object_literal [("data", Some payload)])
    | Failure message details =>
        JObj (object_literal [("error", Some (JStr message)); ("details", details)])
    end).

(** ** A process history

    Everything in the two files that touches the module variables, as the
    operations a running process performs one after the other, each in the
    world it runs in. *)

Inductive Op : Type :=
| GenerateSessionId
| GetSession (sessionId : string)
| CreateSession (sessionId : string)
| DeleteSession (sessionId : string)
| IntrospectSchema
| QueryGraphql (args : json)
| QueryGraphqlPublic (args : json)
| ManualQueryGraphql (body : jsval).

(** The task of an operation; its result is the session identifier it
    generated, if it generated one. *)
Definition op_task (o : Op) : Task (option string) :=
  match o with
  | GenerateSessionId => sid ← sessionIdGenerator sessionManager; Return (Some sid)
  | GetSession sid => _ ← getSession sessionManager sid; Return None
  | CreateSession sid => _ ← createSession sessionManager sid; Return None
  | DeleteSession sid => _ ← deleteSession sessionManager sid; Return None
  | IntrospectSchema => _ ← introspect_schema; Return None
  | QueryGraphql args => _ ← McpServer.query_graphql args; Return None
  | QueryGraphqlPublic args => _ ← PublicAPI.query_graphql args; Return None
  | ManualQueryGraphql body => _ ← PublicAPI.manual_result body; Return None
  end.

Definition step (g : Globals) (ow : Op * World) : Outcome (option string) :=
  run (op_task ow.1) ow.2 g.

(** The module variables after a history. *)
Definition after (h : list (Op * World)) (g : Globals) : Globals :=
  fold_left (fun g ow => globals (step g ow)) h g.

(** The session identifiers a history generates, in order. *)
Fixpoint generated (h : list (Op * World)) (g : Globals) : list string :=
  match h with
  | [] => []
  | ow :: rest =>
      let o := step g ow in
      match result o with
      | Some sid => sid :: generated rest (globals o)
      | None => generated rest (globals o)
      end
  end.

Definition is_generation (ow : Op * World) : bool :=
  match ow.1 with
  | GenerateSessionId => true
  | _ => false
  end.

(** How many identifiers a history asks for. *)
Fixpoint generations (h : list (Op * World)) : nat :=
  match h with
  | [] => 0
  | ow :: rest => (if is_generation ow then 1 else 0) + generations rest
  end%nat.

Definition quiet : World :=
  {| upstream := fun _ => Rejected "fetch failed"; Date_now := 0 |}.

(** The calls the handlers make. *)
Definition introspection_call : UpstreamCall :=
  {| url := GRAPHQL_ENDPOINT;
     document := Some (JStr INTROSPECTION_QUERY);
     variables := None |}.

Definition query_call (query variables : jsval) : UpstreamCall :=
  {| url := GRAPHQL_ENDPOINT; document := query; variables := variables |}.

(** The identifier [generateSessionId] builds from a counter value. *)
Definition session_id_of (n : Z) : string := "session-" +:+ Number_toString n.

(** ** Example worlds and requests *)

Definition countries_query : string := "query { countries { name capital } }".

(** The second request of the README. *)
Definition readme_query_request : jsval :=
  Some (JObj [
    ("jsonrpc", JStr "2.0");
    ("id", JNum 2);
    ("method", JStr "tools/call");
    ("params", JObj [
      ("name", JStr "query-graphql");
      ("arguments", JObj [("query", JStr countries_query)]) ]) ]).

Definition france : json :=
  JObj [("countries", JArr [JObj [("name", JStr "France"); ("capital", JStr "Paris")]])].

Definition tiny_schema : json :=
  JObj [("__schema", JObj [("queryType", JObj [("name", JStr "Query")])])].

(** An upstream that answers the introspection document with a schema and
    every other document with one country. *)
Definition online : World :=
  {| upstream := fun c =>
       if strict_eq_string (document c) INTROSPECTION_QUERY
       then Resolved tiny_schema else Resolved france;
     Date_now := 1700000000000 |}.

(** The module variables of a process that has cached [schema]. *)
Definition cached (schema : json) : Globals :=
  {| cachedSchema := schema; sessions := ∅; sessionCounter := 0 |}.

Definition readme_arguments : json := JObj [("query", JStr countries_query)].

(** A tool result that is a list of exactly one content block of type
    "text". *)
Definition one_text_block (r : ToolResult) : Prop :=
  exists s, content r = [ {| type := "text"; text := s |} ].

(** A process that does nothing but ask for [n] identifiers. *)
Definition burst (n : nat) : list (Op * World) := repeat (GenerateSessionId, quiet) n.

(** ** Measures on a history and on the document *)

(** The identifiers a history calls [createSession] with, in order. *)
Fixpoint created_ids (h : list (Op * World)) : list string :=
  match h with
  | [] => []
  | (CreateSession sessionId, _) :: rest => sessionId :: created_ids rest
  | _ :: rest => created_ids rest
  end.

(** Whether an operation is an [introspect-schema] call that the upstream
    answers with data. *)
Definition caches (ow : Op * World) : bool :=
  match ow.1, upstream ow.2 introspection_call with
  | IntrospectSchema, Resolved _ => true
  | _, _ => false
  end.

(** Every entry of the registry is filed under its own identifier. *)
Definition filed_by_id (g : Globals) : Prop :=
  forall k s, sessions g !! k = Some s -> id s = k.

(** Braces of a token list, read left to right with [open] braces open:
    the number still open at the end, or nothing when a closing brace has no
    opening one. *)
Fixpoint brace_balance (toks : list GraphQL.token) (open : nat) : option nat :=
  match toks with
  | [] => Some open
  | GraphQL.Punct "{" :: rest => brace_balance rest (S open)
  | GraphQL.Punct "}" :: rest =>
      match open with
      | O => None
      | S n => brace_balance rest n
      end
  | _ :: rest => brace_balance rest open
  end.

(** The names of the fragments a document defines, in order. *)
Fixpoint fragment_names (toks : list GraphQL.token) : list string :=
  match toks with
  | GraphQL.Name "fragment" :: ((GraphQL.Name n :: _) as rest) => n :: fragment_names rest
  | _ :: rest => fragment_names rest
  | [] => []
  end.

(** The names a token list spreads ([...Name]), in order. *)
Fixpoint spread_names (toks : list GraphQL.token) : list string :=
  match toks with
  | GraphQL.Punct "." :: GraphQL.Punct "." :: GraphQL.Punct "." ::
      ((GraphQL.Name n :: _) as rest) => n :: spread_names rest
  | _ :: rest => spread_names rest
  | [] => []
  end.

Definition subset_of (xs ys : list string) : bool :=
  forallb (fun x => existsb (String.eqb x) ys) xs.

(** Whether an operation calls [createSession] or [deleteSession] with the
    identifier [k]. *)
Definition touches (k : string) (ow : Op * World) : bool :=
  match ow.1 with
  | CreateSession sessionId | DeleteSession sessionId => String.eqb sessionId k
  | _ => false
  end.

(** An upstream whose data reads like the handler's own error. *)
Definition misleading : World :=
  {| upstream := fun _ =>
       Resolved (JObj [("error", JStr "Failed to execute GraphQL query");
                       ("details", JStr "fetch failed")]);
     Date_now := 0 |}.

(** A transport that throws at once, before anything is sent. *)
Definition failing_transport (message : string) :
    list Tool -> SessionManager -> jsval -> Task (Handled unit) :=
  fun _ _ _ => Return (Threw None message).

(** The first request of the README. *)
Definition readme_introspect_request : jsval :=
  Some (JObj [
    ("jsonrpc", JStr "2.0");
    ("id", JNum 1);
    ("method", JStr "tools/call");
    ("params", JObj [("name", JStr "introspect-schema"); ("arguments", JObj [])]) ]).

(** A [query-graphql] call that carries no arguments. *)
Definition bare_query_request : jsval :=
  Some (JObj [
    ("jsonrpc", JStr "2.0");
    ("method", JStr "tools/call");
    ("params", JObj [("name", JStr "query-graphql")]) ]).

(** An upstream that answers every document with [null] data. *)
Definition hollow : World :=
  {| upstream := fun _ => Resolved JNull; Date_now := 1700000000000 |}.

(** * Properties *)

(** ** Running tasks *)

Lemma run_bind {A B : Type} (t : Task A) (f : A -> Task B) w g :
  run (bind t f) w g =
  {| result := result (run (f (result (run t w g))) w (globals (run t w g)));
     globals := globals (run (f (result (run t w g))) w (globals (run t w g)));
     calls := calls (run t w g) ++
              calls (run (f (result (run t w g))) w (globals (run t w g))) |}.
Proof.
  revert g. induction t as [a | k IH | h k IH | k IH | c k IH]; intros g; simpl.
  - by destruct (run (f a) w g).
  - apply IH.
  - apply IH.
  - apply IH.
  - by rewrite IH.
Qed.

Lemma Globals_eta (g : Globals) :
  {| cachedSchema := cachedSchema g; sessions := sessions g;
     sessionCounter := sessionCounter g |} = g.
Proof. by destruct g. Qed.

(** ** The two handlers, path by path *)

Lemma run_introspect_schema w g :
  run introspect_schema w g =
  match upstream w introspection_call with
  | Resolved schema =>
      {| result := text_content (JSON_stringify schema);
         globals := {| cachedSchema := schema; sessions := sessions g;
                       sessionCounter := sessionCounter g |};
         calls := [introspection_call] |}
  | Rejected message =>
      {| result := spec_translate (Failure "Failed to introspect schema"
                                     (Some (JStr message)));
         globals := g;
         calls := [introspection_call] |}
  end.
Proof.
  unfold introspect_schema, request, mbind, Task_bind. simpl.
  fold introspection_call. by destruct (upstream w introspection_call).
Qed.

Lemma run_query_graphql_body w g query variables :
  run (query_graphql_body query variables) w g =
  if truthy (cachedSchema g) then
    {| result :=
         match upstream w (query_call query variables) with
         | Resolved data => spec_translate (Success data)
         | Rejected message =>
             spec_translate (Failure "Failed to execute GraphQL query"
                               (Some (JStr message)))
         end;
       globals := g;
       calls := [query_call query variables] |}
  else
    {| result := spec_translate (Failure schema_not_available None);
       globals := g;
       calls := [] |}.
Proof.
  unfold query_graphql_body, request, mbind, Task_bind. simpl.
  destruct (truthy (cachedSchema g)); simpl; [|done].
  fold (query_call query variables).
  by destruct (upstream w (query_call query variables)).
Qed.

Lemma run_manual_result w g body :
  run (PublicAPI.manual_result body) w g =
  let query := prop (PublicAPI.manual_arguments body) "query" in
  let variables := prop (PublicAPI.manual_arguments body) "variables" in
  {| result :=
       match upstream w (query_call query variables) with
       | Resolved data => text_content (JSON_stringify data)
       | Rejected message =>
           spec_translate (Failure "Failed to execute GraphQL query"
                             (Some (JStr message)))
       end;
     globals := g;
     calls := [query_call query variables] |}.
Proof.
  unfold PublicAPI.manual_result, request, mbind, Task_bind. simpl.
  fold (query_call (prop (PublicAPI.manual_arguments body) "query")
                   (prop (PublicAPI.manual_arguments body) "variables")).
  by destruct (upstream w _).
Qed.

Lemma run_manual_post_mcp {Reply : Type}
    (transport : list Tool -> SessionManager -> jsval -> Task (Handled Reply))
    w g body :
  PublicAPI.is_manual_query body = true ->
  run (PublicAPI.post_mcp transport body) w g =
  {| result := res_json 200 (PublicAPI.manual_envelope
                 (result (run (PublicAPI.manual_result body) w g)) body);
     globals := g;
     calls := calls (run (PublicAPI.manual_result body) w g) |}.
Proof.
  intros Hq. unfold PublicAPI.post_mcp. rewrite Hq.
  unfold mbind, Task_bind. rewrite run_bind.
  cbn [run result globals calls]. rewrite app_nil_r.
  f_equal. by rewrite run_manual_result.
Qed.

(** Both registered handlers run the shared body on the [query] and
    [variables] of their arguments. *)
Lemma run_McpServer_query_graphql w g args :
  run (McpServer.query_graphql args) w g =
  run (query_graphql_body (prop args "query") (prop args "variables")) w g.
Proof. reflexivity. Qed.

Lemma run_PublicAPI_query_graphql w g args :
  run (PublicAPI.query_graphql args) w g =
  run (query_graphql_body (prop args "query") (prop args "variables")) w g.
Proof. reflexivity. Qed.

(** The handler registered under [query-graphql], in either file, answers
    an unready cache with the fixed failure and calls nobody. *)
Lemma registered_query_graphql_not_ready w g args :
  truthy (cachedSchema g) = false ->
  run (McpServer.query_graphql args) w g =
    {| result := spec_translate (Failure schema_not_available None);
       globals := g; calls := [] |} /\
  run (PublicAPI.query_graphql args) w g =
    {| result := spec_translate (Failure schema_not_available None);
       globals := g; calls := [] |}.
Proof.
  intros Hc.
  rewrite run_McpServer_query_graphql, run_PublicAPI_query_graphql.
  rewrite run_query_graphql_body, Hc. done.
Qed.

Lemma readme_query_request_is_manual :
  PublicAPI.is_manual_query readme_query_request = true.
Proof. reflexivity. Qed.

(** C1. In [mcpServer_publicAPI.js] the route answers a [query-graphql]
    call by hand and never looks at the cache: with the cache still empty,
    the README's query request makes one upstream call, and the client
    receives what the upstream answered (its data, or the failure "Failed to
    execute GraphQL query"), not the failure "Schema not available. Please
    run introspect-schema first.". *)
Theorem publicAPI_query_before_introspection {Reply : Type}
    (transport : list Tool -> SessionManager -> jsval -> Task (Handled Reply))
    (w : World) :
  run (PublicAPI.post_mcp transport readme_query_request) w initial =
    {| result :=
         res_json 200 (PublicAPI.manual_envelope
           match upstream w (query_call (Some (JStr countries_query)) None) with
           | Resolved data => text_content (JSON_stringify data)
           | Rejected message =>
               spec_translate (Failure "Failed to execute GraphQL query"
                                 (Some (JStr message)))
           end readme_query_request);
       globals := initial;
       calls := [query_call (Some (JStr countries_query)) None] |} /\
  result (run (PublicAPI.post_mcp transport readme_query_request) online initial) =
    res_json 200 (JObj [
      ("result", ToolResult_json (text_content (JSON_stringify france)));
      ("jsonrpc", JStr "2.0");
      ("id", JNum 2) ]).
Proof.
  rewrite !run_manual_post_mcp by apply readme_query_request_is_manual.
  rewrite !run_manual_result. split; reflexivity.
Qed.

(** ** C2: the shape of every tool result *)

(** C2, as amended. Every tool result is a list of exactly one content block
    of type "text". Its text is the serialized JSON of the schema itself
    (no [data] wrapper) when [introspect-schema] succeeds, of
    [{ error, details }] when an upstream call fails, of [{ error }] alone
    when the schema is not ready, and of [{ data }] when the registered
    [query-graphql] handler succeeds. *)
Theorem tool_result_shapes (w : World) (g : Globals) (args : json) (body : jsval) :
  let q := query_call (prop args "query") (prop args "variables") in
  let registered :=
    if truthy (cachedSchema g) then
      match upstream w q with
      | Resolved data => spec_translate (Success data)
      | Rejected message =>
          spec_translate (Failure "Failed to execute GraphQL query"
                            (Some (JStr message)))
      end
    else spec_translate (Failure schema_not_available None) in
  (one_text_block (result (run introspect_schema w g)) /\
   one_text_block (result (run (McpServer.query_graphql args) w g)) /\
   one_text_block (result (run (PublicAPI.query_graphql args) w g)) /\
   one_text_block (result (run (PublicAPI.manual_result body) w g))) /\
  result (run introspect_schema w g) =
    match upstream w introspection_call with
    | Resolved schema => text_content (JSON_stringify schema)
    | Rejected message =>
        spec_translate (Failure "Failed to introspect schema" (Some (JStr message)))
    end /\
  result (run (McpServer.query_graphql args) w g) = registered /\
  result (run (PublicAPI.query_graphql args) w g) = registered /\
  match upstream w (query_call (prop (PublicAPI.manual_arguments body) "query")
                               (prop (PublicAPI.manual_arguments body) "variables")) with
  | Resolved _ => True
  | Rejected message =>
      result (run (PublicAPI.manual_result body) w g) =
      spec_translate (Failure "Failed to execute GraphQL query" (Some (JStr message)))
  end.
Proof.
  intros q registered. subst q registered.
  rewrite run_McpServer_query_graphql, run_PublicAPI_query_graphql.
  rewrite run_introspect_schema, run_query_graphql_body, run_manual_result.
  cbv zeta.
  destruct (upstream w introspection_call);
    destruct (truthy (cachedSchema g));
    destruct (upstream w (query_call (prop args "query") (prop args "variables")));
    destruct (upstream w (query_call _ _));
    repeat split; unfold one_text_block, spec_translate, text_content; simpl; eauto.
Qed.

(** C2, as stated, fails: the payload of a successful [introspect-schema]
    is the schema, not an object with a [data] property around it. *)
Lemma introspect_schema_success_is_not_data_shaped :
  upstream online introspection_call = Resolved tiny_schema /\
  ~ exists payload,
      result (run introspect_schema online initial) = spec_translate (Success payload).
Proof.
  split; [reflexivity|].
  intros [payload H]. rewrite run_introspect_schema in H.
  change (upstream online introspection_call) with (Resolved tiny_schema) in H.
  unfold spec_translate, text_content in H. simpl in H.
  discriminate H.
Qed.

(** ** C3: the introspection document *)

(** The measure on the shape it is meant for: a selection that follows
    [ofType] [n] times nests it [n] deep. *)
Lemma nesting_from_type_ref (n : nat) stack prev rest :
  GraphQL.nesting_from "ofType"
    (GraphQL.type_ref n ++ GraphQL.Punct "}" :: rest) prev stack =
  Nat.max (match n with
           | O => O
           | S _ => GraphQL.open_fields stack + n
           end)%nat
          (GraphQL.nesting_from "ofType" rest (Some (GraphQL.Punct "}")) (tail stack)).
Proof.
  revert stack prev rest.
  induction n as [|m IH]; intros stack prev rest; [reflexivity|].
  cbn [GraphQL.type_ref app GraphQL.nesting_from]. simpl String.eqb.
  rewrite <- app_assoc. cbn [app]. rewrite IH.
  cbn [GraphQL.nesting_from GraphQL.open_fields tail].
  destruct m; lia.
Qed.

Lemma nesting_type_ref (n : nat) :
  GraphQL.nesting "ofType" (GraphQL.type_ref n) = n.
Proof.
  destruct n as [|m]; [reflexivity|].
  unfold GraphQL.nesting.
  cbn [GraphQL.type_ref app GraphQL.nesting_from]. simpl String.eqb.
  rewrite nesting_from_type_ref.
  cbn [GraphQL.nesting_from GraphQL.open_fields tail].
  destruct m; lia.
Qed.

(** C3, as amended. The [TypeRef] fragment of the introspection document
    nests [ofType] exactly 6 levels deep: it selects [kind] and [name] on a
    type and on the 6 types it wraps in turn (7 levels of [kind] and
    [name], 6 of [ofType]). *)
Theorem TypeRef_nests_six_ofType :
  GraphQL.nesting "ofType" TypeRef_fragment = 6%nat /\
  TypeRef_fragment = GraphQL.type_ref 6 /\
  GraphQL.nesting "ofType" (GraphQL.lex INTROSPECTION_QUERY) = 6%nat.
Proof. repeat split; vm_compute; reflexivity. Qed.

(** C3, as stated, fails: the nesting is not 7. *)
Lemma TypeRef_does_not_nest_seven_ofType :
  GraphQL.nesting "ofType" TypeRef_fragment <> 7%nat /\
  TypeRef_fragment <> GraphQL.type_ref 7.
Proof. split; vm_compute; discriminate. Qed.

(** ** C4 and C6: [introspect-schema] and the cache *)

(** C4. When the upstream call of [introspect-schema] fails, the handler
    returns the failure "Failed to introspect schema" with the error's
    message as details, and every module variable, the cached schema
    included, is what it was before the call. *)
Theorem introspect_schema_failure_keeps_cache
    (w : World) (g : Globals) (message : string) :
  upstream w introspection_call = Rejected message ->
  run introspect_schema w g =
    {| result := spec_translate (Failure "Failed to introspect schema"
                                   (Some (JStr message)));
       globals := g;
       calls := [introspection_call] |}.
Proof. intros H. by rewrite run_introspect_schema, H. Qed.

(** A failing second call keeps a cached schema, and a failing first call
    keeps the cache empty. *)
Lemma introspect_schema_failure_keeps_cache_witness :
  cachedSchema (globals (run introspect_schema quiet (cached tiny_schema))) = tiny_schema /\
  cachedSchema (globals (run introspect_schema quiet initial)) = JNull.
Proof.
  split.
  - by rewrite (introspect_schema_failure_keeps_cache quiet (cached tiny_schema)
                  "fetch failed" eq_refl).
  - by rewrite (introspect_schema_failure_keeps_cache quiet initial
                  "fetch failed" eq_refl).
Defined.

(** C6. After a successful [introspect-schema] the cache holds the very
    value the upstream returned, whatever it held before; so a later
    successful call replaces the earlier value whole, and nothing else of
    the module state changes. *)
Theorem introspect_schema_success_caches_value
    (w : World) (g : Globals) (schema : json) :
  upstream w introspection_call = Resolved schema ->
  globals (run introspect_schema w g) =
    {| cachedSchema := schema; sessions := sessions g;
       sessionCounter := sessionCounter g |} /\
  forall (w' : World) (schema' : json),
    upstream w' introspection_call = Resolved schema' ->
    cachedSchema (globals (run introspect_schema w'
                             (globals (run introspect_schema w g)))) = schema'.
Proof.
  intros H. split.
  - by rewrite run_introspect_schema, H.
  - intros w' schema' H'. by rewrite (run_introspect_schema w'), H'.
Qed.

(** A successful call replaces a cached value by the upstream's. *)
Lemma introspect_schema_success_caches_value_witness :
  cachedSchema (globals (run introspect_schema online (cached france))) = tiny_schema.
Proof.
  destruct (introspect_schema_success_caches_value online (cached france)
              tiny_schema eq_refl) as [-> _].
  reflexivity.
Defined.

(** ** C5: pass-through of [query] and [variables] *)

(** C5. With a schema in the cache, the registered [query-graphql] handler
    of either file makes exactly one upstream call, to the fixed endpoint,
    with the [query] and [variables] of its arguments as they are; and so
    does the hand-written branch of [mcpServer_publicAPI.js] with the
    [query] and [variables] of the request's [params.arguments]. *)
Theorem query_graphql_forwards_verbatim
    (w : World) (g : Globals) (args : json) :
  truthy (cachedSchema g) = true ->
  calls (run (McpServer.query_graphql args) w g) =
    [ {| url := "https://countries.trevorblades.com/";
         document := prop args "query";
         variables := prop args "variables" |} ] /\
  calls (run (PublicAPI.query_graphql args) w g) =
    [ {| url := "https://countries.trevorblades.com/";
         document := prop args "query";
         variables := prop args "variables" |} ] /\
  forall (Reply : Type)
         (transport : list Tool -> SessionManager -> jsval -> Task (Handled Reply))
         (body : jsval),
    PublicAPI.is_manual_query body = true ->
    PublicAPI.member (PublicAPI.member body "params") "arguments" = Some args ->
    truthy args = true ->
    calls (run (PublicAPI.post_mcp transport body) w g) =
      [ {| url := "https://countries.trevorblades.com/";
           document := prop args "query";
           variables := prop args "variables" |} ].
Proof.
  intros Hc.
  rewrite run_McpServer_query_graphql, run_PublicAPI_query_graphql.
  rewrite run_query_graphql_body, Hc. repeat split.
  intros Reply transport body Hq Hargs Ht.
  rewrite run_manual_post_mcp by done. rewrite run_manual_result.
  unfold PublicAPI.manual_arguments. by rewrite Hargs, Ht.
Qed.

(** The README's query, through the handler and through the route. *)
Lemma query_graphql_forwards_verbatim_witness :
  calls (run (McpServer.query_graphql readme_arguments) online (cached tiny_schema)) =
    [ {| url := "https://countries.trevorblades.com/";
         document := Some (JStr countries_query);
         variables := None |} ] /\
  calls (run (PublicAPI.post_mcp (Reply := unit)
                (fun _ _ _ => Return (Threw None "unused"))
                readme_query_request) online (cached tiny_schema)) =
    [ {| url := "https://countries.trevorblades.com/";
         document := Some (JStr countries_query);
         variables := None |} ].
Proof.
  destruct (query_graphql_forwards_verbatim online (cached tiny_schema)
              readme_arguments eq_refl) as (H1 & _ & H3).
  split; [exact H1|].
  exact (H3 unit _ readme_query_request eq_refl eq_refl eq_refl).
Defined.

(** ** C8: [deleteSession] *)

(** C8. [deleteSession] always returns, without a value and without an
    upstream call; on an identifier that is not in the registry it changes
    nothing, and deleting an identifier a second time changes nothing more. *)
Theorem deleteSession_idempotent (w : World) (g : Globals) (sessionId : string) :
  let once := run (deleteSession sessionManager sessionId) w g in
  once = {| result := tt;
            globals := {| cachedSchema := cachedSchema g;
                          sessions := delete sessionId (sessions g);
                          sessionCounter := sessionCounter g |};
            calls := [] |} /\
  (sessions g !! sessionId = None -> globals once = g) /\
  globals (run (deleteSession sessionManager sessionId) w (globals once)) =
    globals once.
Proof.
  simpl. split; [done|]. split.
  - intros Hn. rewrite delete_id by done. apply Globals_eta.
  - by rewrite delete_delete_eq.
Qed.

(** Deleting from the empty registry. *)
Lemma deleteSession_idempotent_witness :
  globals (run (deleteSession sessionManager "session-7") quiet initial) = initial.
Proof.
  exact (proj1 (proj2 (deleteSession_idempotent quiet initial "session-7")) eq_refl).
Defined.

(** ** One step of a history *)

Lemma result_step g op w :
  result (step g (op, w)) =
  match op with
  | GenerateSessionId => Some (session_id_of (increment (sessionCounter g)))
  | _ => None
  end.
Proof.
  unfold step, op_task, mbind, Task_bind; simpl fst; simpl snd.
  destruct op; rewrite run_bind; reflexivity.
Qed.

Lemma globals_step g op w :
  globals (step g (op, w)) =
  match op with
  | GenerateSessionId =>
      {| cachedSchema := cachedSchema g; sessions := sessions g;
         sessionCounter := increment (sessionCounter g) |}
  | CreateSession sessionId =>
      {| cachedSchema := cachedSchema g;
         sessions := <[sessionId := {| id := sessionId; created := Date_now w |}]>
                       (sessions g);
         sessionCounter := sessionCounter g |}
  | DeleteSession sessionId =>
      {| cachedSchema := cachedSchema g;
         sessions := delete sessionId (sessions g);
         sessionCounter := sessionCounter g |}
  | IntrospectSchema =>
      match upstream w introspection_call with
      | Resolved schema =>
          {| cachedSchema := schema; sessions := sessions g;
             sessionCounter := sessionCounter g |}
      | Rejected _ => g
      end
  | GetSession _ | QueryGraphql _ | QueryGraphqlPublic _ | ManualQueryGraphql _ => g
  end.
Proof.
  unfold step, op_task, mbind, Task_bind; simpl fst; simpl snd.
  destruct op; rewrite run_bind; cbn [run result globals calls];
    try reflexivity.
  - rewrite run_introspect_schema. by destruct (upstream w introspection_call).
  - rewrite run_McpServer_query_graphql, run_query_graphql_body.
    by destruct (truthy (cachedSchema g)).
  - rewrite run_PublicAPI_query_graphql, run_query_graphql_body.
    by destruct (truthy (cachedSchema g)).
  - by rewrite run_manual_result.
Qed.

(** ** C9: what [query-graphql] leaves alone *)

(** C9. A [query-graphql] invocation, through the registered handler of
    either file or through the hand-written branch, on every path, leaves
    the cached schema, the session registry and the counter as they were;
    and an operation that is not [introspect-schema] never changes the
    cached schema. *)
Theorem query_graphql_changes_nothing (w : World) (g : Globals) :
  (forall args, globals (run (McpServer.query_graphql args) w g) = g) /\
  (forall args, globals (run (PublicAPI.query_graphql args) w g) = g) /\
  (forall body, globals (run (PublicAPI.manual_result body) w g) = g) /\
  (forall op, op = IntrospectSchema \/
              cachedSchema (globals (step g (op, w))) = cachedSchema g).
Proof.
  repeat split.
  - intros args. rewrite run_McpServer_query_graphql, run_query_graphql_body.
    by destruct (truthy (cachedSchema g)).
  - intros args. rewrite run_PublicAPI_query_graphql, run_query_graphql_body.
    by destruct (truthy (cachedSchema g)).
  - intros body. by rewrite run_manual_result.
  - intros op. rewrite globals_step. destruct op; auto.
Qed.

(** ** C7 and C10: session identifiers *)

(** Distinct counter values give distinct identifiers. *)
Lemma session_id_of_inj (m n : Z) : session_id_of m = session_id_of n -> m = n.
Proof.
  unfold session_id_of, Number_toString. intros H.
  apply (inj pretty). by apply (inj (String.app "session-")) in H.
Qed.

Lemma increment_exact (n : Z) : n < MAX_EXACT -> increment n = n + 1.
Proof. unfold increment. intros H. by rewrite (proj2 (Z.ltb_lt _ _) H). Qed.

Lemma counter_step g op w :
  sessionCounter (globals (step g (op, w))) =
  if is_generation (op, w) then increment (sessionCounter g) else sessionCounter g.
Proof.
  rewrite globals_step. destruct op; try reflexivity.
  simpl. by destruct (upstream w introspection_call).
Qed.

(** While the counter stays in the exact range, the identifiers of a
    history are those of the next counter values, in order. *)
Lemma generated_exact (h : list (Op * World)) (g : Globals) :
  sessionCounter g + Z.of_nat (generations h) <= MAX_EXACT ->
  generated h g =
    map (fun i => session_id_of (sessionCounter g + Z.of_nat i))
        (seq 1 (generations h)).
Proof.
  revert g. induction h as [|[op w] h IH]; intros g Hb; [reflexivity|].
  cbn [generated generations] in *. rewrite result_step.
  pose proof (counter_step g op w) as Hc.
  destruct (is_generation (op, w)) eqn:Hop.
  - destruct op; try discriminate Hop.
    rewrite increment_exact in * by lia.
    rewrite IH by (rewrite Hc; lia). rewrite Hc.
    cbn [Nat.add seq map]. f_equal.
    rewrite <- (seq_shift (generations h) 1), map_map. apply map_ext. intros i. f_equal. lia.
  - cbn [Nat.add] in *.
    destruct op; try discriminate Hop;
      (rewrite IH by (rewrite Hc; lia); by rewrite Hc).
Qed.

(** The identifier at a position depends only on the counter at the start
    and on the position, as long as the counter is exact up to there. *)
Lemma generated_lookup (h : list (Op * World)) (g : Globals) (i : nat) :
  (i < generations h)%nat ->
  sessionCounter g + Z.of_nat i < MAX_EXACT ->
  generated h g !! i = Some (session_id_of (sessionCounter g + Z.of_nat i + 1)).
Proof.
  revert g i. induction h as [|[op w] h IH]; intros g i Hi Hb;
    cbn [generated generations] in *; [lia|].
  rewrite result_step. pose proof (counter_step g op w) as Hc.
  destruct (is_generation (op, w)) eqn:Hop.
  - destruct op; try discriminate Hop.
    rewrite increment_exact in * by lia.
    destruct i as [|i]; cbn [lookup list_lookup].
    + do 2 f_equal. lia.
    + rewrite IH by (rewrite ?Hc; lia). rewrite Hc. do 2 f_equal. lia.
  - cbn [Nat.add] in Hi.
    destruct op; try discriminate Hop;
      (rewrite IH by (rewrite ?Hc; lia); by rewrite Hc).
Qed.

Lemma generated_app (h1 h2 : list (Op * World)) (g : Globals) :
  generated (h1 ++ h2) g = generated h1 g ++ generated h2 (after h1 g).
Proof.
  revert g. induction h1 as [|ow h1 IH]; intros g; [reflexivity|].
  cbn [app generated after fold_left]. fold (after h1 (globals (step g ow))).
  destruct (result (step g ow)); by rewrite IH.
Qed.

Lemma counter_after (h : list (Op * World)) (g : Globals) :
  sessionCounter g + Z.of_nat (generations h) <= MAX_EXACT ->
  sessionCounter (after h g) = sessionCounter g + Z.of_nat (generations h).
Proof.
  revert g. induction h as [|[op w] h IH]; intros g Hb;
    cbn [after fold_left generations] in *; [lia|].
  fold (after h (globals (step g (op, w)))).
  pose proof (counter_step g op w) as Hc.
  destruct (is_generation (op, w)).
  - rewrite increment_exact in Hc by lia. rewrite IH; rewrite Hc; lia.
  - rewrite IH; rewrite Hc; cbn [Nat.add] in *; lia.
Qed.

Lemma length_generated (h : list (Op * World)) (g : Globals) :
  length (generated h g) = generations h.
Proof.
  revert g. induction h as [|[op w] h IH]; intros g; [reflexivity|].
  cbn [generated generations]. rewrite result_step.
  destruct op; cbn [is_generation fst length Nat.add]; by rewrite IH.
Qed.

(** ** C7 *)

(** C7, as amended. The identifiers a process generates are pairwise
    distinct as long as it generates no more than 2^53 of them, whatever it
    does in between (sessions created, looked up or deleted, tools called):
    an identifier is not used again after its session is deleted. *)
Theorem session_ids_distinct (h : list (Op * World)) :
  Z.of_nat (generations h) <= MAX_EXACT ->
  NoDup (generated h initial).
Proof.
  intros Hb. rewrite generated_exact by (simpl; lia).
  apply NoDup_ListNoDup, Finite.Injective_map_NoDup; [|apply seq_NoDup].
  intros i j Hij. apply session_id_of_inj in Hij. lia.
Qed.

(** Three identifiers with a session created and deleted in between. *)
Lemma session_ids_distinct_witness :
  NoDup (generated [ (GenerateSessionId, quiet);
                     (CreateSession "session-1", quiet);
                     (DeleteSession "session-1", quiet);
                     (GenerateSessionId, online);
                     (IntrospectSchema, online);
                     (GenerateSessionId, quiet) ] initial).
Proof.
  apply session_ids_distinct. vm_compute. discriminate.
Defined.

Lemma generations_burst (n : nat) : generations (burst n) = n.
Proof. induction n as [|n IH]; [done|]. unfold burst in *. simpl. by rewrite IH. Qed.

Lemma burst_add (n m : nat) : burst (n + m) = burst n ++ burst m.
Proof. apply repeat_app. Qed.

(** What the two identifiers asked for after [2^53 - 1] others are. *)
Lemma generated_past_exact (n : nat) :
  Z.of_nat n = MAX_EXACT - 1 ->
  generated (burst (n + 2)) initial =
  generated (burst n) initial ++
    [ "session-9007199254740992"; "session-9007199254740992" ].
Proof.
  intros Hn. rewrite burst_add, generated_app. f_equal.
  pose proof (counter_after (burst n) initial) as Hc.
  rewrite generations_burst in Hc. cbn [sessionCounter initial] in Hc.
  specialize (Hc ltac:(lia)).
  change (burst 2) with [(GenerateSessionId, quiet); (GenerateSessionId, quiet)].
  cbn [generated]. rewrite !result_step, !globals_step.
  cbn [sessionCounter]. rewrite Hc, Hn.
  reflexivity.
Qed.

(** C7, as stated, fails: in a process that asks for [2^53 + 1] identifiers
    the last two are the same, the counter having stopped at [2^53]. *)
Lemma session_ids_repeat_past_exact :
  ~ NoDup (generated (burst (Z.to_nat (2 ^ 53 + 1))) initial).
Proof.
  replace (Z.to_nat (2 ^ 53 + 1)) with (Z.to_nat (2 ^ 53 - 1) + 2)%nat by lia.
  rewrite generated_past_exact by (unfold MAX_EXACT; lia).
  intros Hd. apply NoDup_app in Hd as (_ & _ & Hd).
  apply NoDup_cons in Hd as [Hd _]. apply Hd. left.
Qed.

(** ** C10 *)

(** C10, as amended. For every k from 1 to 2^53, the k-th identifier a
    process generates is "session-" followed by the decimal numeral of k,
    whatever else the process does in between. *)
Theorem kth_session_id (h : list (Op * World)) (k : nat) :
  (1 <= k <= generations h)%nat ->
  Z.of_nat k <= MAX_EXACT ->
  generated h initial !! (k - 1)%nat = Some ("session-" +:+ pretty (Z.of_nat k)).
Proof.
  intros Hk Hb. rewrite generated_lookup by (simpl; lia).
  unfold session_id_of, Number_toString. simpl sessionCounter.
  do 3 f_equal. lia.
Qed.

(** The third identifier of a short history. *)
Lemma kth_session_id_witness :
  generated [ (GenerateSessionId, quiet);
              (DeleteSession "session-1", quiet);
              (GenerateSessionId, online);
              (GenerateSessionId, quiet) ] initial !! 2%nat = Some "session-3".
Proof.
  apply (kth_session_id _ 3); vm_compute; [split; by repeat constructor | discriminate].
Defined.

(** C10, as stated, fails: the identifier number [2^53 + 1] is the one of
    [2^53] again. *)
Lemma session_id_past_exact :
  generated (burst (Z.to_nat (2 ^ 53 + 1))) initial !! Z.to_nat (2 ^ 53) =
    Some "session-9007199254740992" /\
  "session-9007199254740992" <> "session-" +:+ pretty (2 ^ 53 + 1).
Proof.
  split; [|vm_compute; discriminate].
  replace (Z.to_nat (2 ^ 53 + 1)) with (Z.to_nat (2 ^ 53 - 1) + 2)%nat by lia.
  rewrite generated_past_exact by (unfold MAX_EXACT; lia).
  rewrite lookup_app_r; rewrite length_generated, generations_burst; [|lia].
  replace (Z.to_nat (2 ^ 53) - Z.to_nat (2 ^ 53 - 1))%nat with 1%nat by lia.
  reflexivity.
Qed.

(** * Further properties of the code *)

(** ** The session manager *)

(** X1. A session read back after [createSession] is the one created: it
    carries the identifier it was created under and the time of creation;
    the lookup of any other identifier is what it was before. *)
Theorem createSession_then_getSession
    (w w' : World) (g : Globals) (sessionId other : string) :
  result (run (createSession sessionManager sessionId) w g) =
    {| id := sessionId; created := Date_now w |} /\
  result (run (getSession sessionManager other) w'
            (globals (run (createSession sessionManager sessionId) w g))) =
    if decide (sessionId = other)
    then Some {| id := sessionId; created := Date_now w |}
    else result (run (getSession sessionManager other) w' g).
Proof.
  split; [reflexivity|]. cbn [run getSession createSession sessionManager
                              result globals sessions].
  apply lookup_insert.
Qed.

(** X2. Creating a session under an identifier that is free and deleting it
    again leaves all module state as it was. *)
Theorem createSession_then_deleteSession
    (w w' : World) (g : Globals) (sessionId : string) :
  sessions g !! sessionId = None ->
  globals (run (deleteSession sessionManager sessionId) w'
             (globals (run (createSession sessionManager sessionId) w g))) = g.
Proof.
  intros Hfree. cbn [run deleteSession createSession sessionManager
                     result globals sessions cachedSchema sessionCounter].
  rewrite delete_insert_id by done. apply Globals_eta.
Qed.

(** A session created and deleted in a fresh process. *)
Lemma createSession_then_deleteSession_witness :
  globals (run (deleteSession sessionManager "session-1") quiet
             (globals (run (createSession sessionManager "session-1") online initial)))
  = initial.
Proof. exact (createSession_then_deleteSession online quiet initial "session-1" eq_refl). Defined.

(** X3. [createSession] under an identifier that is already in the registry
    replaces the entry: the state is the one a single creation at the later
    time gives, and the registry grows by one entry only when the identifier
    was free. *)
Theorem createSession_replaces
    (w w' : World) (g : Globals) (sessionId : string) :
  globals (run (createSession sessionManager sessionId) w'
             (globals (run (createSession sessionManager sessionId) w g))) =
    globals (run (createSession sessionManager sessionId) w' g) /\
  size (sessions (globals (run (createSession sessionManager sessionId) w g))) =
    match sessions g !! sessionId with
    | Some _ => size (sessions g)
    | None => S (size (sessions g))
    end.
Proof.
  cbn [run createSession sessionManager result globals sessions
       cachedSchema sessionCounter]. split.
  - by rewrite insert_insert_eq.
  - rewrite map_size_insert. by destruct (sessions g !! sessionId).
Qed.

Lemma filed_by_id_step g op w : filed_by_id g -> filed_by_id (globals (step g (op, w))).
Proof.
  intros Hg. rewrite globals_step. destruct op; try exact Hg.
  - intros k s Hk. cbn [sessions] in Hk.
    apply lookup_insert_Some in Hk as [[<- <-]|[_ Hk]]; [done|by apply Hg].
  - intros k s Hk. cbn [sessions] in Hk.
    apply lookup_delete_Some in Hk as [_ Hk]. by apply Hg.
  - destruct (upstream w introspection_call); exact Hg.
Qed.

Lemma filed_by_id_after h g : filed_by_id g -> filed_by_id (after h g).
Proof.
  revert g. induction h as [|[op w] h IH]; intros g Hg; [done|].
  cbn [after fold_left]. fold (after h (globals (step g (op, w)))).
  by apply IH, filed_by_id_step.
Qed.

(** X4. Whatever a process has done, a session found in the registry under
    an identifier has that identifier as its [id]. *)
Theorem session_id_is_its_key
    (h : list (Op * World)) (w : World) (sessionId : string) (s : Session) :
  result (run (getSession sessionManager sessionId) w (after h initial)) = Some s ->
  id s = sessionId.
Proof.
  intros Hs. eapply (filed_by_id_after h initial); [|exact Hs].
  intros k s' Hk. cbn [sessions initial] in Hk. by rewrite lookup_empty in Hk.
Qed.

(** The session of a short history. *)
Lemma session_id_is_its_key_witness :
  id {| id := "session-1"; created := 1700000000000 |} = "session-1".
Proof.
  exact (session_id_is_its_key
           [(GenerateSessionId, quiet); (CreateSession "session-1", online)]
           quiet "session-1" _ eq_refl).
Defined.

(** ** The counter and fresh identifiers *)

Lemma increment_min (n : Z) : n <= MAX_EXACT -> increment n = Z.min (n + 1) MAX_EXACT.
Proof.
  intros Hn. unfold increment. destruct (n <? MAX_EXACT) eqn:Hlt.
  - apply Z.ltb_lt in Hlt. lia.
  - apply Z.ltb_ge in Hlt. lia.
Qed.

Lemma counter_after_min (h : list (Op * World)) (g : Globals) :
  sessionCounter g <= MAX_EXACT ->
  sessionCounter (after h g) =
    Z.min (sessionCounter g + Z.of_nat (generations h)) MAX_EXACT.
Proof.
  revert g. induction h as [|[op w] h IH]; intros g Hg;
    cbn [after fold_left generations]; [lia|].
  fold (after h (globals (step g (op, w)))).
  pose proof (counter_step g op w) as Hc.
  destruct (is_generation (op, w)).
  - rewrite increment_min in Hc by done. rewrite IH; rewrite Hc; lia.
  - rewrite IH; rewrite Hc; cbn [Nat.add]; lia.
Qed.

(** X5. The counter of a process is the number of identifiers it has
    generated so far, capped at 2^53: no other operation moves it, it never
    goes down, and it never passes the cap. *)
Theorem counter_counts_generations (h : list (Op * World)) :
  sessionCounter (after h initial) = Z.min (Z.of_nat (generations h)) MAX_EXACT.
Proof.
  rewrite counter_after_min by (cbn; unfold MAX_EXACT; lia). reflexivity.
Qed.

(** The registry holds sessions only under identifiers it held before or
    that [createSession] was called with. *)
Lemma live_was_created (h : list (Op * World)) (g : Globals) (k : string) :
  is_Some (sessions (after h g) !! k) ->
  is_Some (sessions g !! k) \/ k ∈ created_ids h.
Proof.
  revert g. induction h as [|[op w] h IH]; intros g Hk; [by left|].
  cbn [after fold_left] in Hk. fold (after h (globals (step g (op, w)))) in Hk.
  apply IH in Hk. rewrite globals_step in Hk.
  destruct op; cbn [created_ids];
    try (destruct Hk as [Hk|Hk]; [by left|by right]).
  - destruct Hk as [Hk|Hk]; [|right; by right].
    cbn [sessions] in Hk. apply lookup_insert_is_Some' in Hk as [<-|Hk];
      [right; left|by left].
  - destruct Hk as [Hk|Hk]; [|by right].
    cbn [sessions] in Hk. apply lookup_delete_is_Some in Hk as [_ Hk]. by left.
  - destruct Hk as [Hk|Hk]; [|by right].
    left. by destruct (upstream w introspection_call).
Qed.

(** X6. In a process that creates sessions only under identifiers it has
    generated, and has generated fewer than 2^53 of them, the next
    identifier generated names no session of the registry: creating a
    session under it replaces nothing. *)
Theorem next_session_id_is_free (h : list (Op * World)) (w : World) (sid : string) :
  (forall k, k ∈ created_ids h -> k ∈ generated h initial) ->
  Z.of_nat (generations h) < MAX_EXACT ->
  result (step (after h initial) (GenerateSessionId, w)) = Some sid ->
  sessions (after h initial) !! sid = None.
Proof.
  intros Hdisc Hb Hsid. rewrite result_step in Hsid.
  rewrite counter_after in Hsid by (cbn; lia). cbn [sessionCounter initial] in Hsid.
  rewrite increment_exact in Hsid by lia. injection Hsid as <-.
  apply eq_None_not_Some. intros Hlive.
  apply live_was_created in Hlive as [Hlive|Hlive].
  { cbn [sessions initial] in Hlive. rewrite lookup_empty in Hlive.
    by destruct Hlive. }
  apply Hdisc in Hlive. rewrite generated_exact in Hlive by (cbn; lia).
  apply list_elem_of_In, in_map_iff in Hlive as (i & Hi & Hin).
  apply session_id_of_inj in Hi. apply in_seq in Hin.
  cbn [sessionCounter initial] in Hi. lia.
Qed.

(** The second identifier of a process whose first session is live. *)
Lemma next_session_id_is_free_witness :
  sessions (after [(GenerateSessionId, quiet); (CreateSession "session-1", online)]
              initial) !! "session-2" = None.
Proof.
  apply (next_session_id_is_free
           [(GenerateSessionId, quiet); (CreateSession "session-1", online)] quiet).
  - intros k Hk. vm_compute in Hk. vm_compute. exact Hk.
  - vm_compute. reflexivity.
  - reflexivity.
Defined.

(** ** The handlers and the cache *)

(** X7. [introspect-schema] asks the upstream every time it is invoked, also
    when a schema is cached: one call, to the fixed endpoint, with the
    introspection document and no variables; and it leaves the session
    registry and the counter alone. *)
Theorem introspect_schema_always_asks (w : World) (g : Globals) :
  calls (run introspect_schema w g) =
    [ {| url := "https://countries.trevorblades.com/";
         document := Some (JStr INTROSPECTION_QUERY);
         variables := None |} ] /\
  sessions (globals (run introspect_schema w g)) = sessions g /\
  sessionCounter (globals (run introspect_schema w g)) = sessionCounter g.
Proof.
  rewrite run_introspect_schema.
  by destruct (upstream w introspection_call).
Qed.

Lemma after_app (h1 h2 : list (Op * World)) (g : Globals) :
  after (h1 ++ h2) g = after h2 (after h1 g).
Proof. apply fold_left_app. Qed.

Lemma cache_kept (h : list (Op * World)) (g : Globals) :
  forallb (fun ow => negb (caches ow)) h = true ->
  cachedSchema (after h g) = cachedSchema g.
Proof.
  revert g. induction h as [|[op w] h IH]; intros g Hh; [done|].
  cbn [forallb] in Hh. apply andb_prop in Hh as [Hop Hh].
  cbn [after fold_left]. fold (after h (globals (step g (op, w)))).
  rewrite IH by done. rewrite globals_step.
  unfold caches in Hop. cbn [fst snd] in Hop.
  destruct op; try reflexivity.
  by destruct (upstream w introspection_call).
Qed.

(** X8. The cached schema of a process is the answer to its last successful
    [introspect-schema]: failed introspections, queries and session
    operations that come after it do not replace, clear or expire it. *)
Theorem last_successful_introspection_is_cached
    (h1 h2 : list (Op * World)) (w : World) (g : Globals) (schema : json) :
  upstream w introspection_call = Resolved schema ->
  forallb (fun ow => negb (caches ow)) h2 = true ->
  cachedSchema (after (h1 ++ (IntrospectSchema, w) :: h2) g) = schema.
Proof.
  intros Hw Hh2. rewrite after_app. cbn [after fold_left].
  fold (after h2 (globals (step (after h1 g) (IntrospectSchema, w)))).
  rewrite cache_kept by done. by rewrite globals_step, Hw.
Qed.

(** A schema survives a failed introspection, a query and a session. *)
Lemma last_successful_introspection_is_cached_witness :
  cachedSchema
    (after ([(GenerateSessionId, quiet)] ++
            (IntrospectSchema, online) ::
            [ (IntrospectSchema, quiet);
              (QueryGraphql readme_arguments, online);
              (CreateSession "session-1", online);
              (DeleteSession "session-1", quiet) ]) initial) = tiny_schema.
Proof.
  apply (last_successful_introspection_is_cached [(GenerateSessionId, quiet)]);
    reflexivity.
Defined.

(** X9. Once [introspect-schema] has succeeded with a schema that is an
    object (any truthy value), a [query-graphql] through the registered
    handler of either file is let through: it makes its one upstream call
    and returns the upstream's data under [data], or the failure "Failed to
    execute GraphQL query" with the error's message. *)
Theorem introspect_then_query
    (w w' : World) (g : Globals) (schema : json) (args : json) :
  upstream w introspection_call = Resolved schema ->
  truthy schema = true ->
  let ready := globals (run introspect_schema w g) in
  let expected :=
    {| result :=
         match upstream w' (query_call (prop args "query") (prop args "variables")) with
         | Resolved data => text_content (JSON_stringify (JObj [("data", data)]))
         | Rejected message =>
             text_content (JSON_stringify (JObj [
               ("error", JStr "Failed to execute GraphQL query");
               ("details", JStr message) ]))
         end;
       globals := ready;
       calls := [query_call (prop args "query") (prop args "variables")] |} in
  run (McpServer.query_graphql args) w' ready = expected /\
  run (PublicAPI.query_graphql args) w' ready = expected.
Proof.
  intros Hw Ht ready expected. subst ready expected.
  rewrite run_McpServer_query_graphql, run_PublicAPI_query_graphql.
  rewrite run_query_graphql_body, run_introspect_schema, Hw.
  cbn [globals cachedSchema]. rewrite Ht.
  by destruct (upstream w' _).
Qed.

(** The README's two requests, one after the other. *)
Lemma introspect_then_query_witness :
  result (run (McpServer.query_graphql readme_arguments) online
            (globals (run introspect_schema online initial))) =
  text_content (JSON_stringify (JObj [("data", france)])).
Proof.
  destruct (introspect_then_query online online initial tiny_schema
              readme_arguments eq_refl eq_refl) as [-> _].
  reflexivity.
Defined.

(** X10. The gate of [query-graphql] tests the cached value, not whether an
    introspection took place: after an [introspect-schema] that succeeded
    with a falsy value ([null], [false], [0] or the empty string) the
    tool result of the introspection is that value serialized, and the
    registered [query-graphql] handlers still refuse with "Schema not
    available. Please run introspect-schema first." and call nobody. *)
Theorem falsy_schema_keeps_gate_closed
    (w w' : World) (g : Globals) (schema : json) (args : json) :
  upstream w introspection_call = Resolved schema ->
  truthy schema = false ->
  result (run introspect_schema w g) = text_content (JSON_stringify schema) /\
  run (McpServer.query_graphql args) w' (globals (run introspect_schema w g)) =
    {| result := text_content (JSON_stringify (JObj [
                   ("error", JStr "Schema not available. Please run introspect-schema first.") ]));
       globals := globals (run introspect_schema w g);
       calls := [] |} /\
  run (PublicAPI.query_graphql args) w' (globals (run introspect_schema w g)) =
    {| result := text_content (JSON_stringify (JObj [
                   ("error", JStr "Schema not available. Please run introspect-schema first.") ]));
       globals := globals (run introspect_schema w g);
       calls := [] |}.
Proof.
  intros Hw Ht.
  rewrite run_McpServer_query_graphql, run_PublicAPI_query_graphql.
  rewrite run_query_graphql_body, run_introspect_schema, Hw.
  cbn [globals cachedSchema result]. by rewrite Ht.
Qed.

(** An upstream that answers the introspection with [null]. *)
Lemma falsy_schema_keeps_gate_closed_witness :
  calls (run (McpServer.query_graphql readme_arguments) online
           (globals (run introspect_schema hollow initial))) = [].
Proof.
  destruct (falsy_schema_keeps_gate_closed hollow online initial JNull
              readme_arguments eq_refl eq_refl) as (_ & -> & _).
  reflexivity.
Defined.

(** ** The routes *)

Lemma strict_eq_string_true (v : jsval) (lit : string) :
  strict_eq_string v lit = true <-> v = Some (JStr lit).
Proof.
  destruct v as [[]|]; simpl; try (split; [discriminate|congruence]).
  rewrite String.eqb_eq. split; congruence.
Qed.

Lemma prop_Some (v : json) (k : string) (x : json) :
  prop v k = Some x <-> exists props, v = JObj props /\ assoc k props = Some x.
Proof.
  destruct v; simpl; try (split; [discriminate|by intros (? & ? & _)]).
  split; [eauto|]. by intros (? & [= <-] & ?).
Qed.

(** X11. The route of [mcpServer_publicAPI.js] answers a request by hand
    exactly when its body is an object whose [method] is the string
    "tools/call" and whose [params] is an object whose [name] is the string
    "query-graphql"; every other body goes to the SDK transport. *)
Theorem manual_branch_condition (body : jsval) :
  PublicAPI.is_manual_query body = true <->
  exists props params,
    body = Some (JObj props) /\
    assoc "method" props = Some (JStr "tools/call") /\
    assoc "params" props = Some (JObj params) /\
    assoc "name" params = Some (JStr "query-graphql").
Proof.
  unfold PublicAPI.is_manual_query. split.
  - destruct body as [b|]; [|discriminate].
    intros H. apply andb_prop in H as [H Hp]. apply andb_prop in H as [_ Hm].
    apply strict_eq_string_true, prop_Some in Hm as (props & -> & Hm).
    simpl in Hp. destruct (assoc "params" props) as [p|] eqn:Hq; [|discriminate].
    apply andb_prop in Hp as [_ Hn].
    apply strict_eq_string_true, prop_Some in Hn as (params & -> & Hn).
    by exists props, params.
  - intros (props & params & -> & Hm & Hp & Hn).
    cbn [truthy prop andb]. rewrite Hm, Hp. cbn [truthy prop andb].
    by rewrite Hn.
Qed.

(** X12. A request taken by hand is answered without the SDK transport and
    without touching the module state, after one upstream call: always with
    status 200 and a JSON-RPC result that carries the request's [id] (no
    [id] property when the request has none) and one text block, the
    upstream's data serialized as it is, or the error object of a failed
    call. *)
Theorem manual_branch_response {Reply : Type}
    (transport : list Tool -> SessionManager -> jsval -> Task (Handled Reply))
    (w : World) (g : Globals) (body : jsval) :
  PublicAPI.is_manual_query body = true ->
  let call :=
    {| url := "https://countries.trevorblades.com/";
       document := prop (PublicAPI.manual_arguments body) "query";
       variables := prop (PublicAPI.manual_arguments body) "variables" |} in
  let payload :=
    match upstream w call with
    | Resolved data => JSON_stringify data
    | Rejected message =>
        JSON_stringify (JObj [("error", JStr "Failed to execute GraphQL query");
                              ("details", JStr message)])
    end in
  run (PublicAPI.post_mcp transport body) w g =
    {| result :=
         res_json 200 (JObj (
           [ ("result", JObj [("content",
                JArr [JObj [("type", JStr "text"); ("text", JStr payload)]])]);
             ("jsonrpc", JStr "2.0") ] ++
           match PublicAPI.member body "id" with
           | Some i => [("id", i)]
           | None => []
           end));
       globals := g;
       calls := [call] |}.
Proof.
  intros Hq call payload. subst call payload.
  rewrite run_manual_post_mcp by done. rewrite run_manual_result. cbv zeta.
  unfold query_call, GRAPHQL_ENDPOINT. f_equal.
  unfold PublicAPI.manual_envelope, ToolResult_json.
  destruct (upstream w _); destruct (PublicAPI.member body "id"); reflexivity.
Qed.

(** The README's query in a process that has cached nothing. *)
Lemma manual_branch_response_witness :
  globals (run (PublicAPI.post_mcp (failing_transport "unused")
                  readme_query_request) online initial) = initial.
Proof.
  by rewrite (manual_branch_response (failing_transport "unused") online initial
                readme_query_request eq_refl).
Defined.

(** X13. The manual branch validates nothing: when the request has no
    [arguments], or a falsy one, it still calls the upstream, with an
    undefined document and undefined variables. *)
Theorem manual_branch_without_arguments {Reply : Type}
    (transport : list Tool -> SessionManager -> jsval -> Task (Handled Reply))
    (w : World) (g : Globals) (body : jsval) :
  PublicAPI.is_manual_query body = true ->
  (forall a, PublicAPI.member (PublicAPI.member body "params") "arguments" = Some a ->
             truthy a = false) ->
  calls (run (PublicAPI.post_mcp transport body) w g) =
    [ {| url := "https://countries.trevorblades.com/";
         document := None;
         variables := None |} ].
Proof.
  intros Hq Ha. rewrite run_manual_post_mcp by done. rewrite run_manual_result.
  unfold PublicAPI.manual_arguments.
  destruct (PublicAPI.member _ "arguments") as [a|]; [|reflexivity].
  by rewrite (Ha a eq_refl).
Qed.

(** A [query-graphql] call with no arguments at all. *)
Lemma manual_branch_without_arguments_witness :
  calls (run (PublicAPI.post_mcp (failing_transport "unused")
                bare_query_request) quiet initial) =
    [ {| url := "https://countries.trevorblades.com/";
         document := None;
         variables := None |} ].
Proof.
  apply manual_branch_without_arguments; [reflexivity|].
  intros a Ha. discriminate Ha.
Defined.

(** X14. When the SDK transport throws, the route of either file (in
    [mcpServer_publicAPI.js]: for a request it does not answer by hand)
    answers 500 with "Internal server error" and the error's message only if
    no response has begun; once one has begun the route sends nothing of its
    own.  Either way the route adds no upstream call and no state change to
    the transport's. *)
Theorem route_catch {Reply : Type}
    (transport : list Tool -> SessionManager -> jsval -> Task (Handled Reply))
    (w : World) (g : Globals) (body : jsval) (sent : option Reply) (message : string) :
  result (run (transport McpServer.tools sessionManager body) w g) = Threw sent message ->
  let caught :=
    {| result :=
         match sent with
         | None => res_json 500 (JObj [("error", JStr "Internal server error");
                                       ("details", JStr message)])
         | Some reply => from_transport reply
         end;
       globals := globals (run (transport McpServer.tools sessionManager body) w g);
       calls := calls (run (transport McpServer.tools sessionManager body) w g) |} in
  run (McpServer.post_mcp transport body) w g = caught /\
  (PublicAPI.is_manual_query body = false ->
   run (PublicAPI.post_mcp transport body) w g = caught).
Proof.
  intros Ht caught. subst caught.
  assert (run (McpServer.post_mcp transport body) w g =
          {| result := settle (Threw sent message);
             globals := globals (run (transport McpServer.tools sessionManager body) w g);
             calls := calls (run (transport McpServer.tools sessionManager body) w g) |})
    as Hm.
  { unfold McpServer.post_mcp, mbind, Task_bind.
    rewrite run_bind, Ht. cbn [run result globals calls]. by rewrite app_nil_r. }
  split.
  - rewrite Hm. by destruct sent.
  - intros Hq. unfold PublicAPI.post_mcp. rewrite Hq.
    transitivity (run (McpServer.post_mcp transport body) w g); [reflexivity|].
    rewrite Hm. by destruct sent.
Qed.

(** A transport that fails before anything is sent, in both files. *)
Lemma route_catch_witness :
  result (run (McpServer.post_mcp (failing_transport "boom")
                 readme_introspect_request) quiet initial) =
    res_json 500 (JObj [("error", JStr "Internal server error");
                        ("details", JStr "boom")]) /\
  result (run (PublicAPI.post_mcp (failing_transport "boom")
                 readme_introspect_request) quiet initial) =
    res_json 500 (JObj [("error", JStr "Internal server error");
                        ("details", JStr "boom")]).
Proof.
  destruct (route_catch (failing_transport "boom") quiet initial
              readme_introspect_request None "boom" eq_refl) as [H1 H2].
  split; [by rewrite H1|by rewrite (H2 eq_refl)].
Defined.

(** ** The introspection document *)

(** X15. The introspection document is closed and tidy: its braces balance;
    it defines the fragments FullType, InputValue and TypeRef, spreads no
    other name, and spreads each of them; and no fragment reaches itself
    (TypeRef spreads nothing, InputValue only TypeRef, FullType only the
    other two). *)
Theorem INTROSPECTION_QUERY_is_closed :
  let doc := GraphQL.lex INTROSPECTION_QUERY in
  let inside name := spread_names (GraphQL.fragment_selection name doc) in
  brace_balance doc 0 = Some 0%nat /\
  fragment_names doc = ["FullType"; "InputValue"; "TypeRef"] /\
  subset_of (spread_names doc) (fragment_names doc) = true /\
  subset_of (fragment_names doc) (spread_names doc) = true /\
  inside "TypeRef" = [] /\
  subset_of (inside "InputValue") ["TypeRef"] = true /\
  subset_of (inside "FullType") ["InputValue"; "TypeRef"] = true.
Proof. repeat split; vm_compute; reflexivity. Qed.

(** ** More on the registry *)

(** X16. After [deleteSession] the identifier is not found, and the lookup
    of any other identifier is what it was before. *)
Theorem deleteSession_then_getSession
    (w w' : World) (g : Globals) (sessionId other : string) :
  result (run (getSession sessionManager other) w'
            (globals (run (deleteSession sessionManager sessionId) w g))) =
    if decide (sessionId = other) then None
    else result (run (getSession sessionManager other) w' g).
Proof.
  cbn [run getSession deleteSession sessionManager result globals sessions].
  apply lookup_delete.
Qed.

Lemma session_kept_step g op w k :
  touches k (op, w) = false ->
  sessions (globals (step g (op, w))) !! k = sessions g !! k.
Proof.
  intros Ht. rewrite globals_step. unfold touches in Ht. cbn [fst] in Ht.
  destruct op; try reflexivity.
  - apply String.eqb_neq in Ht. cbn [sessions]. by rewrite lookup_insert_ne.
  - apply String.eqb_neq in Ht. cbn [sessions]. by rewrite lookup_delete_ne.
  - by destruct (upstream w introspection_call).
Qed.

(** X17. A session stays in the registry, unchanged, through everything a
    process does, until [createSession] or [deleteSession] is called with
    its identifier: tool calls and identifier generation never remove,
    replace or expire it. *)
Theorem session_persists
    (h : list (Op * World)) (g : Globals) (k : string) (s : Session) :
  sessions g !! k = Some s ->
  forallb (fun ow => negb (touches k ow)) h = true ->
  sessions (after h g) !! k = Some s.
Proof.
  revert g. induction h as [|[op w] h IH]; intros g Hs Hh; [done|].
  cbn [forallb] in Hh. apply andb_prop in Hh as [Hop Hh].
  cbn [after fold_left]. fold (after h (globals (step g (op, w)))).
  apply IH; [|done]. rewrite session_kept_step; [done|].
  by apply negb_true_iff.
Qed.

(** A session lives through introspections, queries and other sessions. *)
Lemma session_persists_witness :
  sessions (after [ (IntrospectSchema, online);
                    (QueryGraphql readme_arguments, online);
                    (GenerateSessionId, quiet);
                    (CreateSession "session-2", quiet);
                    (DeleteSession "session-2", quiet) ]
              (globals (run (createSession sessionManager "session-1") online initial)))
    !! "session-1" = Some {| id := "session-1"; created := 1700000000000 |}.
Proof. apply session_persists; reflexivity. Defined.

(** ** Telling success from failure *)

(** X18. A client can always tell from the text of a registered
    [query-graphql] result whether the upstream call was made and
    succeeded: the text of a success is never the text of a failed call,
    nor the text of the "Schema not available" refusal, whatever data and
    message the upstream produced. *)
Theorem query_success_is_recognizable
    (w w' : World) (g g' : Globals) (args args' : json) (data : json) :
  truthy (cachedSchema g) = true ->
  upstream w (query_call (prop args "query") (prop args "variables")) = Resolved data ->
  result (run (McpServer.query_graphql args') w' g') =
    result (run (McpServer.query_graphql args) w g) ->
  truthy (cachedSchema g') = true /\
  exists data',
    upstream w' (query_call (prop args' "query") (prop args' "variables")) =
      Resolved data'.
Proof.
  intros Hc Hw. rewrite !run_McpServer_query_graphql, !run_query_graphql_body.
  rewrite Hc, Hw. cbn [result].
  destruct (truthy (cachedSchema g')); cbn [result].
  - destruct (upstream w' _) as [data'|message]; [eauto|].
    unfold spec_translate, text_content. simpl. discriminate.
  - unfold spec_translate, text_content. simpl. discriminate.
Qed.

(** The same query answered twice by the same upstream. *)
Lemma query_success_is_recognizable_witness :
  truthy (cachedSchema (cached tiny_schema)) = true /\
  exists data',
    upstream online (query_call (prop readme_arguments "query")
                                (prop readme_arguments "variables")) = Resolved data'.
Proof.
  exact (query_success_is_recognizable online online
           (cached tiny_schema) (cached tiny_schema)
           readme_arguments readme_arguments france
           eq_refl eq_refl eq_refl).
Defined.

(** X19. The manual branch of [mcpServer_publicAPI.js] loses that: it sends
    the upstream's data without a wrapper, so a successful call whose data
    is an object of the form [{ error: "Failed to execute GraphQL query",
    details: message }] gets the very response of a call that failed with
    [message]. *)
Theorem manual_success_can_pass_for_failure {Reply : Type}
    (transport : list Tool -> SessionManager -> jsval -> Task (Handled Reply))
    (w w' : World) (g : Globals) (body : jsval) (message : string) :
  PublicAPI.is_manual_query body = true ->
  upstream w (query_call (prop (PublicAPI.manual_arguments body) "query")
                         (prop (PublicAPI.manual_arguments body) "variables")) =
    Resolved (JObj [("error", JStr "Failed to execute GraphQL query");
                    ("details", JStr message)]) ->
  upstream w' (query_call (prop (PublicAPI.manual_arguments body) "query")
                          (prop (PublicAPI.manual_arguments body) "variables")) =
    Rejected message ->
  run (PublicAPI.post_mcp transport body) w g =
  run (PublicAPI.post_mcp transport body) w' g.
Proof.
  intros Hq Hw Hw'. rewrite !run_manual_post_mcp by done.
  rewrite !run_manual_result. cbv zeta. by rewrite Hw, Hw'.
Qed.

(** The README's query against that upstream and against a dead one. *)
Lemma manual_success_can_pass_for_failure_witness :
  run (PublicAPI.post_mcp (failing_transport "unused") readme_query_request)
      misleading initial =
  run (PublicAPI.post_mcp (failing_transport "unused") readme_query_request)
      quiet initial.
Proof.
  exact (manual_success_can_pass_for_failure (failing_transport "unused")
           misleading quiet initial readme_query_request "fetch failed"
           eq_refl eq_refl eq_refl).
Defined.
